(** * Script content model of the outreach platform

    A shallow embedding of [backend/src/models/Script.js] and
    [backend/src/services/ScriptService.js], and the properties of the
    variable engine, the versioning operations and the lifecycle service.

    Modelling conventions.
    - A JavaScript string is a [string]: a sequence of code units, each an
      [ascii] (code units up to 255).  The characters the code inspects
      (braces, quotes, the backslash, control characters, white space up to
      the no-break space) all lie in that range.
    - A JavaScript number is an integer ([Z]); fractional values and NaN
      are outside the model.
    - Fields carry the types the data model documents; a field of a raw
      record is absent, null, or holds a value of that type.
    - [new Date()] and the identifier chosen by the document store are
      inputs of the operations (see [ScriptService.Env]). *)

From Stdlib Require Import ZArith NArith Ascii String List Lia.
From stdpp Require Import base option list strings pretty gmap sorting.
From Equations Require Import Equations.

Set Default Proof Using "Type".
Set Warnings "-register-all".
Open Scope string_scope.

(** ** JavaScript values that occur inside script content *)

Module Js.

(** A JSON value.  An object is the list of its own enumerable properties in
    enumeration order: the keys are pairwise distinct, and the order is the
    one [Object.entries] and [JSON.stringify] both follow. *)
Inductive json : Type :=
| JNull
| JBool (b : bool)
| JNum (n : Z)
| JStr (s : string)
| JArr (items : list json)
| JObj (props : list (string * json)).

(** [!!v] is false exactly for the falsy values. *)
Definition truthy (v : json) : bool :=
  match v with
  | JNull => false
  | JBool b => b
  | JNum n => negb (n =? 0)%Z
  | JStr s => negb (s =? EmptyString)%string
  | JArr _ | JObj _ => true
  end.

Definition str_truthy (s : string) : bool := negb (s =? EmptyString)%string.

(** *** Strings *)

Definition lbrace : ascii := "{"%char.
Definition rbrace : ascii := "}"%char.

(** [mem c s]: the code unit [c] occurs in [s]. *)
Fixpoint mem (c : ascii) (s : string) : bool :=
  match s with
  | EmptyString => false
  | String a r => (a =? c)%char || mem c r
  end.

(** The part [([^}]+)\}] of the pattern, tried at the start of [s]: the run
    of code units before the first ["}"], and what follows that ["}"]. *)
Fixpoint until_close (s : string) : option (string * string) :=
  match s with
  | EmptyString => None
  | String c r =>
      if (c =? rbrace)%char then Some (EmptyString, r)
      else match until_close r with
           | Some (run, rest) => Some (String c run, rest)
           | None => None
           end
  end.

(** One [exec] of [/\{([^}]+)\}/] on [s], scanning from its start: the text
    skipped before the match, the captured group, and the text after the
    match.  At a ["{"] the greedy class takes every code unit up to the next
    ["}"]; the attempt fails when that run is empty or no ["}"] follows, and
    the search moves one position on. *)
Fixpoint regex_exec (s : string) : option (string * string * string) :=
  match s with
  | EmptyString => None
  | String c r =>
      let later :=
        match regex_exec r with
        | Some (skipped, group, rest) => Some (String c skipped, group, rest)
        | None => None
        end in
      if (c =? lbrace)%char then
        match until_close r with
        | Some (String a run, rest) => Some (EmptyString, String a run, rest)
        | _ => later
        end
      else later
  end.

Lemma until_close_length s run rest :
  until_close s = Some (run, rest) →
  String.length s = S (String.length run + String.length rest).
Proof.
  revert run rest. induction s as [|c r IH]; intros run rest; simpl; [done|].
  destruct (c =? rbrace)%char.
  - intros [= <- <-]. done.
  - destruct (until_close r) as [[run' rest']|]; [|done].
    intros [= <- <-]. simpl. by rewrite (IH run' rest').
Qed.

Lemma regex_exec_length s skipped group rest :
  regex_exec s = Some (skipped, group, rest) →
  String.length rest < String.length s.
Proof.
  revert skipped. induction s as [|c r IH]; intros skipped; simpl; [done|].
  assert (Hlater : ∀ sk,
    match regex_exec r with
    | Some (skipped0, group0, rest0) => Some (String c skipped0, group0, rest0)
    | None => None
    end = Some (sk, group, rest) → String.length rest < S (String.length r)).
  { intros sk. destruct (regex_exec r) as [[[sk' g'] r']|] eqn:E; [|done].
    intros [= <- <- <-]. specialize (IH sk' eq_refl). lia. }
  destruct (c =? lbrace)%char; [|by apply Hlater].
  destruct (until_close r) as [[[|a run] rest']|] eqn:E; try by apply Hlater.
  intros [= <- <- <-]. apply until_close_length in E. simpl in E. lia.
Qed.

Definition inspect {A} (x : A) : {y : A | x = y} := exist _ x eq_refl.

(** The loop [while ((match = re.exec(s)) !== null) out.push(match[1])] of a
    global pattern: each search resumes where the previous match ended. *)
Equations? exec_all (s : string) : list string by wf (String.length s) lt :=
  exec_all s with inspect (regex_exec s) := {
    | exist _ None _ => [];
    | exist _ (Some (_, group, rest)) H => group :: exec_all rest }.
Proof. by eapply regex_exec_length. Qed.

(** [s.replace(/\{([^}]+)\}/g, f)]: the text between matches is kept, each
    match is replaced by [f match group]. *)
Equations? regex_replace (f : string → string → string) (s : string) : string
  by wf (String.length s) lt :=
  regex_replace f s with inspect (regex_exec s) := {
    | exist _ None _ => s;
    | exist _ (Some (skipped, group, rest)) H =>
        skipped +:+ f (String lbrace group +:+ String rbrace EmptyString) group
                +:+ regex_replace f rest }.
Proof. by eapply regex_exec_length. Qed.

(** [closed s]: every ["{"] of [s] has a ["}"] somewhere after it in [s]. *)
Fixpoint closed (s : string) : bool :=
  match s with
  | EmptyString => true
  | String c r => (if (c =? lbrace)%char then mem rbrace r else true) && closed r
  end.

(** [inert s]: every ["{"] of [s] is immediately followed by ["}"]. *)
Fixpoint inert (s : string) : bool :=
  match s with
  | EmptyString => true
  | String c r =>
      if (c =? lbrace)%char then
        match r with
        | String c' _ => (c' =? rbrace)%char && inert r
        | EmptyString => false
        end
      else inert r
  end.

(** *** [JSON.stringify] *)

Definition hex_digit (n : N) : ascii :=
  match n with
  | 0 => "0" | 1 => "1" | 2 => "2" | 3 => "3" | 4 => "4" | 5 => "5"
  | 6 => "6" | 7 => "7" | 8 => "8" | 9 => "9" | 10 => "a" | 11 => "b"
  | 12 => "c" | 13 => "d" | 14 => "e" | _ => "f"
  end%N%char.

Definition backslash : ascii := ascii_of_N 92.

(** The text [JSON.stringify] writes for one code unit inside a string. *)
Definition escape_char (c : ascii) : string :=
  let n := N_of_ascii c in
  if (n =? 34)%N then String backslash (String c EmptyString)
  else if (n =? 92)%N then String backslash (String backslash EmptyString)
  else if (n =? 8)%N then "\b"
  else if (n =? 9)%N then "\t"
  else if (n =? 10)%N then "\n"
  else if (n =? 12)%N then "\f"
  else if (n =? 13)%N then "\r"
  else if (n <? 32)%N then
    "\u00" +:+ String (hex_digit (n / 16)) (String (hex_digit (n mod 16)) EmptyString)
  else String c EmptyString.

Fixpoint escape (s : string) : string :=
  match s with
  | EmptyString => EmptyString
  | String c r => escape_char c +:+ escape r
  end.

Definition dquote : string := String (ascii_of_N 34) EmptyString.

Definition quote (s : string) : string := dquote +:+ escape s +:+ dquote.

Fixpoint stringify (v : json) : string :=
  match v with
  | JNull => "null"
  | JBool b => if b then "true" else "false"
  | JNum n => pretty n
  | JStr s => quote s
  | JArr items => "[" +:+ String.concat "," (map stringify items) +:+ "]"
  | JObj props =>
      "{" +:+ String.concat ","
                (map (λ kv, quote (fst kv) +:+ ":" +:+ stringify (snd kv)) props)
          +:+ "}"
  end.

(** The string leaves of a value, in order. *)
Fixpoint strings (v : json) : list string :=
  match v with
  | JStr s => [s]
  | JArr items => flat_map strings items
  | JObj props => flat_map (λ kv, strings (snd kv)) props
  | _ => []
  end.

(** [no_mapping v]: [v] is built from leaves and arrays only. *)
Fixpoint no_mapping (v : json) : bool :=
  match v with
  | JArr items => forallb no_mapping items
  | JObj _ => false
  | _ => true
  end.

(** *** Property reads and [Set] *)

Fixpoint assoc (k : string) (props : list (string * json)) : option json :=
  match props with
  | [] => None
  | (k', v) :: rest => if (k' =? k)%string then Some v else assoc k rest
  end.

(** [v.k] for the property names the code reads ([opening], [main_points],
    [length]); [None] is [undefined]. *)
Definition prop (v : json) (k : string) : option json :=
  match v with
  | JObj props => assoc k props
  | JArr items => if (k =? "length")%string
                  then Some (JNum (Z.of_nat (List.length items))) else None
  | JStr s => if (k =? "length")%string
              then Some (JNum (Z.of_nat (String.length s))) else None
  | _ => None
  end.

(** [!x] for the result of a property read. *)
Definition falsy (x : option json) : bool :=
  match x with
  | Some v => negb (truthy v)
  | None => true
  end.

(** [set.add(x)] on a [Set] listed in insertion order. *)
Definition set_add (x : string) (set : list string) : list string :=
  if bool_decide (x ∈ set) then set else set ++ [x].

(** *** [String.prototype.trim] *)

Definition is_space (c : ascii) : bool :=
  let n := N_of_ascii c in
  ((9 <=? n) && (n <=? 13) || (n =? 32) || (n =? 160))%N.

Fixpoint trim_start (s : string) : string :=
  match s with
  | EmptyString => EmptyString
  | String c r => if is_space c then trim_start r else s
  end.

Fixpoint trim_end (s : string) : string :=
  match s with
  | EmptyString => EmptyString
  | String c r =>
      match trim_end r with
      | EmptyString => if is_space c then EmptyString else String c EmptyString
      | r' => String c r'
      end
  end.

Definition trim (s : string) : string := trim_end (trim_start s).

(** *** [toLowerCase] and [includes] *)

(** [toLowerCase] of one code unit: the letters A to Z and the accented
    capitals from 192 to 222, the multiplication sign at 215 apart, move 32
    up. *)
Definition lower_char (c : ascii) : ascii :=
  let n := N_of_ascii c in
  if ((65 <=? n) && (n <=? 90)
      || (192 <=? n) && (n <=? 222) && negb (n =? 215))%N
  then ascii_of_N (n + 32) else c.

Fixpoint toLowerCase (s : string) : string :=
  match s with
  | EmptyString => EmptyString
  | String c r => String (lower_char c) (toLowerCase r)
  end.

(** [s.includes(t)]: [t] starts at some position of [s]. *)
Fixpoint includes (s t : string) : bool :=
  String.prefix t s
  || match s with
     | EmptyString => false
     | String _ r => includes r t
     end.

End Js.


(** ** Raw records: the argument of the constructor and the stored documents *)

Module Data.

(** A key of a raw record is absent ([undefined]), [null], or holds a value. *)
Inductive field (T : Type) : Type :=
| Absent
| Null
| Val (v : T).
Arguments Absent {T}.
Arguments Null {T}.
Arguments Val {T} v.

(** [performance_metrics]; [None] stands for a key that is absent or null. *)
Record Metrics : Type := {
  total_uses : option Z;
  success_rate : option Z;
  average_duration : option Z;
  conversion_rate : option Z;
  last_used : option Z
}.

Record t : Type := mk {
  id : field string;
  name : field string;
  description : field string;
  type : field string;
  industry : field string;
  language : field string;
  tone : field string;
  objective : field string;
  content : field Js.json;
  variables : field (list string);
  settings : field Js.json;
  performance_metrics : field Metrics;
  tags : field (list string);
  status : field string;
  created_by : field string;
  created_at : field Z;
  updated_at : field Z;
  version : field Z;
  parent_script_id : field string
}.

(** [{}] *)
Definition empty : t :=
  mk Absent Absent Absent Absent Absent Absent Absent Absent Absent Absent
     Absent Absent Absent Absent Absent Absent Absent Absent Absent.

(** A key written after a spread overrides the spread one, whatever it
    holds; an absent key leaves it. *)
Definition over {T} (a b : field T) : field T :=
  match b with
  | Absent => a
  | _ => b
  end.

(** [{...a, ...b}] *)
Definition spread (a b : t) : t := {|
  id := over (id a) (id b);
  name := over (name a) (name b);
  description := over (description a) (description b);
  type := over (type a) (type b);
  industry := over (industry a) (industry b);
  language := over (language a) (language b);
  tone := over (tone a) (tone b);
  objective := over (objective a) (objective b);
  content := over (content a) (content b);
  variables := over (variables a) (variables b);
  settings := over (settings a) (settings b);
  performance_metrics := over (performance_metrics a) (performance_metrics b);
  tags := over (tags a) (tags b);
  status := over (status a) (status b);
  created_by := over (created_by a) (created_by b);
  created_at := over (created_at a) (created_at b);
  updated_at := over (updated_at a) (updated_at b);
  version := over (version a) (version b);
  parent_script_id := over (parent_script_id a) (parent_script_id b)
|}.

(** A value that may be [null] or [undefined], as a key of a literal. *)
Definition of_nullable {T} (x : option T) : field T :=
  match x with
  | Some v => Val v
  | None => Null
  end.

(** [x || d] at each type: a falsy value gives way to the default. *)
Definition or_string (x : field string) (d : string) : string :=
  match x with
  | Val s => if Js.str_truthy s then s else d
  | _ => d
  end.

Definition or_json (x : field Js.json) (d : Js.json) : Js.json :=
  match x with
  | Val v => if Js.truthy v then v else d
  | _ => d
  end.

Definition or_number (x : field Z) (d : Z) : Z :=
  match x with
  | Val n => if (n =? 0)%Z then d else n
  | _ => d
  end.

(** Arrays, plain objects and dates are always truthy. *)
Definition or_object {T} (x : field T) (d : T) : T :=
  match x with
  | Val v => v
  | _ => d
  end.

(** [x || null] for an identifier. *)
Definition or_null (x : field string) : option string :=
  match x with
  | Val s => if Js.str_truthy s then Some s else None
  | _ => None
  end.

End Data.

(** ** The Script model ([models/Script.js]) *)

Module Script.

Import Js.
Export Data(field, Absent, Null, Val, Metrics).

Record t : Type := mk {
  id : option string;
  name : string;
  description : string;
  type : string;
  industry : string;
  language : string;
  tone : string;
  objective : string;
  content : json;
  variables : list string;
  settings : json;
  performance_metrics : Metrics;
  tags : list string;
  status : string;
  created_by : string;
  created_at : Z;
  updated_at : Z;
  version : Z;
  parent_script_id : option string
}.

Definition default_content : json :=
  JObj [("opening", JStr EmptyString);
        ("main_points", JArr []);
        ("objection_handling", JObj []);
        ("closing", JStr EmptyString);
        ("fallback_responses", JArr [])].

Definition default_settings : json :=
  JObj [("max_duration", JNum 300);
        ("retry_attempts", JNum 3);
        ("voice_settings",
           JObj [("voice_id", JStr "en-US-Standard-A");
                 ("speed", JNum 1);
                 ("pitch", JNum 0)]);
        ("ai_behavior",
           JObj [("interruption_handling", JBool true);
                 ("sentiment_adaptation", JBool true);
                 ("conversation_flow", JStr "adaptive")])].

(** The zero/null baseline of the metrics. *)
Definition baseline_metrics : Metrics := {|
  Data.total_uses := Some 0%Z;
  Data.success_rate := Some 0%Z;
  Data.average_duration := Some 0%Z;
  Data.conversion_rate := Some 0%Z;
  Data.last_used := None
|}.

(** [new Script(data)]; [now] is what [new Date()] returns. *)
Definition new (now : Z) (data : Data.t) : t := {|
  id := Data.or_null (Data.id data);
  name := Data.or_string (Data.name data) EmptyString;
  description := Data.or_string (Data.description data) EmptyString;
  type := Data.or_string (Data.type data) "call";
  industry := Data.or_string (Data.industry data) EmptyString;
  language := Data.or_string (Data.language data) "en";
  tone := Data.or_string (Data.tone data) "professional";
  objective := Data.or_string (Data.objective data) EmptyString;
  content := Data.or_json (Data.content data) default_content;
  variables := Data.or_object (Data.variables data) [];
  settings := Data.or_json (Data.settings data) default_settings;
  performance_metrics :=
    Data.or_object (Data.performance_metrics data) baseline_metrics;
  tags := Data.or_object (Data.tags data) [];
  status := Data.or_string (Data.status data) "draft";
  created_by := Data.or_string (Data.created_by data) EmptyString;
  created_at := Data.or_object (Data.created_at data) now;
  updated_at := Data.or_object (Data.updated_at data) now;
  version := Data.or_number (Data.version data) 1;
  parent_script_id := Data.or_null (Data.parent_script_id data)
|}.

(** [{...this}]: the own properties of a script as a raw record. *)
Definition own (this : t) : Data.t := {|
  Data.id := Data.of_nullable (id this);
  Data.name := Val (name this);
  Data.description := Val (description this);
  Data.type := Val (type this);
  Data.industry := Val (industry this);
  Data.language := Val (language this);
  Data.tone := Val (tone this);
  Data.objective := Val (objective this);
  Data.content := Val (content this);
  Data.variables := Val (variables this);
  Data.settings := Val (settings this);
  Data.performance_metrics := Val (performance_metrics this);
  Data.tags := Val (tags this);
  Data.status := Val (status this);
  Data.created_by := Val (created_by this);
  Data.created_at := Val (created_at this);
  Data.updated_at := Val (updated_at this);
  Data.version := Val (version this);
  Data.parent_script_id := Data.of_nullable (parent_script_id this)
|}.

Record Validation : Type := {
  isValid : bool;
  errors : list string
}.

Definition includes (xs : list string) (x : string) : bool :=
  existsb (String.eqb x) xs.

(** [if (cond) errors.push(msg)] *)
Definition push_if (cond : bool) (msg : string) (errors : list string) :
    list string :=
  if cond then errors ++ [msg] else errors.

Definition validate (this : t) : Validation :=
  let errors := [] in
  let errors :=
    push_if (negb (str_truthy (name this))
             || Nat.eqb (String.length (trim (name this))) 0)
            "Script name is required" errors in
  let errors :=
    push_if (str_truthy (name this)
             && Nat.ltb 100 (String.length (name this)))
            "Script name must be less than 100 characters" errors in
  let errors :=
    push_if (negb (includes ["call"; "sms"; "email"] (type this)))
            "Script type must be call, sms, or email" errors in
  let errors :=
    push_if (negb (includes ["professional"; "casual"; "friendly"; "assertive"]
                     (tone this)))
            "Invalid tone specified" errors in
  let errors :=
    push_if (negb (includes ["draft"; "active"; "archived"] (status this)))
            "Invalid status specified" errors in
  let errors :=
    push_if ((type this =? "call")%string
             && falsy (prop (content this) "opening"))
            "Opening script is required for call scripts" errors in
  let errors :=
    push_if ((type this =? "sms")%string
             && (falsy (prop (content this) "main_points")
                 || match prop (content this) "main_points" with
                    | Some points =>
                        match prop points "length" with
                        | Some (JNum 0) => true
                        | _ => false
                        end
                    | None => false
                    end))
            "Main points are required for SMS scripts" errors in
  {| isValid := Nat.eqb (List.length errors) 0; errors := errors |}.

(** [toFirestore()]: the own properties without [id]. *)
Definition toFirestore (this : t) : Data.t :=
  let data := own this in
  Data.mk Absent (Data.name data) (Data.description data) (Data.type data)
    (Data.industry data) (Data.language data) (Data.tone data)
    (Data.objective data) (Data.content data) (Data.variables data)
    (Data.settings data) (Data.performance_metrics data) (Data.tags data)
    (Data.status data) (Data.created_by data) (Data.created_at data)
    (Data.updated_at data) (Data.version data) (Data.parent_script_id data).

(** [{...m, last_used: m?.last_used?.toDate() || null}] of a stored metrics
    field: a missing object spreads to no keys. *)
Definition metrics_fromFirestore (m : field Metrics) : Metrics :=
  let stored := Data.or_object m (Data.Build_Metrics None None None None None) in
  {| Data.total_uses := Data.total_uses stored;
     Data.success_rate := Data.success_rate stored;
     Data.average_duration := Data.average_duration stored;
     Data.conversion_rate := Data.conversion_rate stored;
     Data.last_used := Data.last_used stored |}.

(** [Script.fromFirestore(doc)] for a snapshot with identifier [doc_id] and
    fields [data]: [{ id: doc.id, ...data, created_at: ..., updated_at: ...,
    performance_metrics: ... }]. *)
Definition fromFirestore (now : Z) (doc_id : string) (data : Data.t) : t :=
  new now
    (Data.mk (Data.over (Val doc_id) (Data.id data))
       (Data.name data) (Data.description data) (Data.type data)
       (Data.industry data) (Data.language data) (Data.tone data)
       (Data.objective data) (Data.content data) (Data.variables data)
       (Data.settings data)
       (Val (metrics_fromFirestore (Data.performance_metrics data)))
       (Data.tags data) (Data.status data) (Data.created_by data)
       (Val (Data.or_object (Data.created_at data) now))
       (Val (Data.or_object (Data.updated_at data) now))
       (Data.version data) (Data.parent_script_id data)).

(** [extractVariables()]: every match of the pattern in the serialized
    content adds its group to a [Set]; the set is listed in insertion
    order. *)
Definition extractVariables (this : t) : list string :=
  let content := stringify (content this) in
  fold_left (λ variables group, set_add group variables) (exec_all content) [].

Section replaceVariables.

(** The argument [variableValues]: its own keys, and what a read of any
    other name finds on the prototype every object has (the text the
    replacement turns that member into), if anything. *)
Variable variableValues : gmap string string.
Variable inherited : string → option string.

(** The callback [(match, variable) => variableValues[variable] || match] *)
Definition replacement (match_ variable : string) : string :=
  match variableValues !! variable with
  | Some value => if str_truthy value then value else match_
  | None =>
      match inherited variable with
      | Some member => member
      | None => match_
      end
  end.

Definition replaceInString (str : string) : string :=
  regex_replace replacement str.

Fixpoint replaceInObject (obj : json) : json :=
  match obj with
  | JArr items => JArr (map replaceInObject items)
  | JObj props => JObj (map (λ kv, (fst kv, replaceInObject (snd kv))) props)
  | JStr str => JStr (replaceInString str)
  | _ => obj
  end.

(** A token the map resolves to a non-empty text without ["{"]. *)
Definition resolved (token : string) : Prop :=
  ∃ value, variableValues !! token = Some value
           ∧ value ≠ EmptyString ∧ mem lbrace value = false.

(** [replaceVariables(variableValues)]: [{...this, content: ...}] *)
Definition replaceVariables (this : t) : t :=
  mk (id this) (name this) (description this) (type this) (industry this)
     (language this) (tone this) (objective this)
     (replaceInObject (content this))
     (variables this) (settings this) (performance_metrics this)
     (tags this) (status this) (created_by this) (created_at this)
     (updated_at this) (version this) (parent_script_id this).

End replaceVariables.

(** [{...a, ...b}] on metrics objects *)
Definition metrics_spread (a b : Metrics) : Metrics := {|
  Data.total_uses := from_option Some (Data.total_uses a) (Data.total_uses b);
  Data.success_rate :=
    from_option Some (Data.success_rate a) (Data.success_rate b);
  Data.average_duration :=
    from_option Some (Data.average_duration a) (Data.average_duration b);
  Data.conversion_rate :=
    from_option Some (Data.conversion_rate a) (Data.conversion_rate b);
  Data.last_used := from_option Some (Data.last_used a) (Data.last_used b)
|}.

(** [updateMetrics(metrics)]: the script after the two assignments. *)
Definition updateMetrics (now : Z) (metrics : Metrics) (this : t) : t :=
  let merged := metrics_spread (performance_metrics this) metrics in
  mk (id this) (name this) (description this) (type this) (industry this)
     (language this) (tone this) (objective this) (content this)
     (variables this) (settings this)
     {| Data.total_uses := Data.total_uses merged;
        Data.success_rate := Data.success_rate merged;
        Data.average_duration := Data.average_duration merged;
        Data.conversion_rate := Data.conversion_rate merged;
        Data.last_used := Some now |}
     (tags this) (status this) (created_by this) (created_at this)
     now (version this) (parent_script_id this).

(** The assignments [script.variables = vars] and [script.id = doc_id]. *)
Definition set_variables (vars : list string) (this : t) : t :=
  mk (id this) (name this) (description this) (type this) (industry this)
     (language this) (tone this) (objective this) (content this)
     vars (settings this) (performance_metrics this)
     (tags this) (status this) (created_by this) (created_at this)
     (updated_at this) (version this) (parent_script_id this).

Definition set_id (doc_id : string) (this : t) : t :=
  mk (Some doc_id) (name this) (description this) (type this) (industry this)
     (language this) (tone this) (objective this) (content this)
     (variables this) (settings this) (performance_metrics this)
     (tags this) (status this) (created_by this) (created_at this)
     (updated_at this) (version this) (parent_script_id this).

(** [createVersion()] *)
Definition createVersion (now : Z) (this : t) : t :=
  new now
    (Data.spread (own this)
       {| Data.id := Null;
          Data.name := Absent; Data.description := Absent;
          Data.type := Absent; Data.industry := Absent;
          Data.language := Absent; Data.tone := Absent;
          Data.objective := Absent; Data.content := Absent;
          Data.variables := Absent; Data.settings := Absent;
          Data.performance_metrics := Val baseline_metrics;
          Data.tags := Absent; Data.status := Absent;
          Data.created_by := Absent;
          Data.created_at := Val now;
          Data.updated_at := Val now;
          Data.version := Val (version this + 1)%Z;
          Data.parent_script_id := Data.of_nullable (id this) |}).

End Script.

(** ** The lifecycle service ([services/ScriptService.js]) *)

Module ScriptService.

Import Js.
Export Data(field, Absent, Null, Val, Metrics).

(** What an operation reads from its surroundings: the clock of the
    process, the clock of the store ([FieldValue.serverTimestamp()]) and the
    identifier the store picks for the next added document. *)
Record Env : Type := {
  now : Z;
  server_time : Z;
  new_id : string
}.

(** What an operation can throw: an [Error] the service creates, known by
    its message, or a failure of the store, passed on as it is. *)
Inductive Exn : Type :=
| JsError (message : string)
| StorageError (code : string).

Inductive outcome (A : Type) : Type :=
| Returned (a : A)
| Thrown (e : Exn).
Arguments Returned {A} a.
Arguments Thrown {A} e.

(** The collection [scripts]: documents by identifier. *)
Abbreviation Store := (gmap string Data.t).

(** An asynchronous operation: it runs on the collection and either returns
    or throws, leaving the collection as it then is. *)
Definition M (A : Type) : Type := Store → outcome A * Store.

Definition ret {A} (a : A) : M A := λ st, (Returned a, st).

Definition throw {A} (e : Exn) : M A := λ st, (Thrown e, st).

Definition bind {A B} (m : M A) (k : A → M B) : M B :=
  λ st, match m st with
        | (Returned a, st') => k a st'
        | (Thrown e, st') => (Thrown e, st')
        end.

Notation "'let*' x ':=' m 'in' k" := (bind m (λ x, k))
  (at level 10, x name, m at level 100, k at level 200).

(** *** The store *)

(** [collection.add(data)] *)
Definition add (env : Env) (data : Data.t) : M string :=
  λ st, (Returned (new_id env), <[new_id env := data]> st).

(** [collection.doc(id).get()]: [None] is a snapshot that does not exist. *)
Definition get (doc_id : string) : M (option Data.t) :=
  λ st, (Returned (st !! doc_id), st).

(** [collection.doc(id).update(data)]: the given keys are written over the
    stored ones; the store refuses when there is no such document. *)
Definition update (doc_id : string) (data : Data.t) : M unit :=
  λ st, match st !! doc_id with
        | Some stored => (Returned tt, <[doc_id := Data.spread stored data]> st)
        | None => (Thrown (StorageError "not-found"), st)
        end.

(** [collection.doc(id).delete()] *)
Definition delete (doc_id : string) : M unit :=
  λ st, (Returned tt, base.delete doc_id st).

(** *** The operations *)

(** [`Validation failed: ${validation.errors.join(', ')}`] *)
Definition validation_message (errors : list string) : string :=
  "Validation failed: " +:+ String.concat ", " errors.

(** The first statement of [createScript]: the entity built from the raw
    record, the owner and the clock. *)
Definition entity (env : Env) (scriptData : Data.t)
    (userId : option string) : Script.t :=
  Script.new (now env)
    (Data.spread scriptData
       {| Data.id := Absent; Data.name := Absent;
          Data.description := Absent; Data.type := Absent;
          Data.industry := Absent; Data.language := Absent;
          Data.tone := Absent; Data.objective := Absent;
          Data.content := Absent; Data.variables := Absent;
          Data.settings := Absent; Data.performance_metrics := Absent;
          Data.tags := Absent; Data.status := Absent;
          Data.created_by := Data.of_nullable userId;
          Data.created_at := Val (now env);
          Data.updated_at := Val (now env);
          Data.version := Absent; Data.parent_script_id := Absent |}).

Definition createScript (env : Env) (scriptData : Data.t)
    (userId : option string) : M Script.t :=
  let script := entity env scriptData userId in
  let validation := Script.validate script in
  if negb (Script.isValid validation) then
    throw (JsError (validation_message (Script.errors validation)))
  else
    let script := Script.set_variables (Script.extractVariables script) script in
    let* docRef := add env (Script.toFirestore script) in
    let script := Script.set_id docRef script in
    ret script.

(** [userId && script.created_by !== userId] *)
Definition other_owner (userId : option string) (script : Script.t) : bool :=
  match userId with
  | Some user => str_truthy user && negb (Script.created_by script =? user)%string
  | None => false
  end.

Definition getScript (env : Env) (scriptId : string)
    (userId : option string) : M Script.t :=
  let* doc := get scriptId in
  match doc with
  | None => throw (JsError "Script not found")
  | Some data =>
      let script := Script.fromFirestore (now env) scriptId data in
      if other_owner userId script then throw (JsError "Access denied")
      else ret script
  end.

(** The entity [updateScript] builds: the patch spread over the stored
    script, then [id] and [updated_at]. *)
Definition patched (env : Env) (scriptId : string)
    (existingScript : Script.t) (updateData : Data.t) : Script.t :=
  Script.new (now env)
    (Data.spread (Data.spread (Script.own existingScript) updateData)
       {| Data.id := Val scriptId; Data.name := Absent;
          Data.description := Absent; Data.type := Absent;
          Data.industry := Absent; Data.language := Absent;
          Data.tone := Absent; Data.objective := Absent;
          Data.content := Absent; Data.variables := Absent;
          Data.settings := Absent; Data.performance_metrics := Absent;
          Data.tags := Absent; Data.status := Absent;
          Data.created_by := Absent; Data.created_at := Absent;
          Data.updated_at := Val (now env);
          Data.version := Absent; Data.parent_script_id := Absent |}).

(** What [updateScript] hands to the store:
    [{...updatedScript.toFirestore(), updated_at: serverTimestamp()}]. *)
Definition written (env : Env) (updatedScript : Script.t) : Data.t :=
  Data.spread (Script.toFirestore updatedScript)
    {| Data.id := Absent; Data.name := Absent;
       Data.description := Absent; Data.type := Absent;
       Data.industry := Absent; Data.language := Absent;
       Data.tone := Absent; Data.objective := Absent;
       Data.content := Absent; Data.variables := Absent;
       Data.settings := Absent; Data.performance_metrics := Absent;
       Data.tags := Absent; Data.status := Absent;
       Data.created_by := Absent; Data.created_at := Absent;
       Data.updated_at := Val (server_time env);
       Data.version := Absent; Data.parent_script_id := Absent |}.

Definition updateScript (env : Env) (scriptId : string) (updateData : Data.t)
    (userId : option string) : M Script.t :=
  let* existingScript := getScript env scriptId userId in
  let updatedScript := patched env scriptId existingScript updateData in
  let validation := Script.validate updatedScript in
  if negb (Script.isValid validation) then
    throw (JsError (validation_message (Script.errors validation)))
  else
    let updatedScript :=
      Script.set_variables (Script.extractVariables updatedScript)
        updatedScript in
    let* _ := update scriptId (written env updatedScript) in
    ret updatedScript.

Definition deleteScript (env : Env) (scriptId : string)
    (userId : option string) : M unit :=
  let* script := getScript env scriptId userId in
  let* _ := delete scriptId in
  ret tt.

(** [newName || `${originalScript.name} (Copy)`] *)
Definition copy_name (newName : option string) (original : Script.t) : string :=
  match newName with
  | Some given =>
      if str_truthy given then given else Script.name original +:+ " (Copy)"
  | None => Script.name original +:+ " (Copy)"
  end.

Definition duplicateScript (env : Env) (scriptId : string)
    (userId : option string) (newName : option string) : M Script.t :=
  let* originalScript := getScript env scriptId userId in
  let duplicatedScript :=
    Script.new (now env)
      (Data.spread (Script.own originalScript)
         {| Data.id := Null;
            Data.name := Val (copy_name newName originalScript);
            Data.description := Absent; Data.type := Absent;
            Data.industry := Absent; Data.language := Absent;
            Data.tone := Absent; Data.objective := Absent;
            Data.content := Absent; Data.variables := Absent;
            Data.settings := Absent;
            Data.performance_metrics := Val Script.baseline_metrics;
            Data.tags := Absent; Data.status := Absent;
            Data.created_by := Absent;
            Data.created_at := Val (now env);
            Data.updated_at := Val (now env);
            Data.version := Absent; Data.parent_script_id := Absent |}) in
  createScript env (Script.own duplicatedScript) userId.

Definition createVersion (env : Env) (scriptId : string)
    (userId : option string) : M Script.t :=
  let* originalScript := getScript env scriptId userId in
  let newVersion := Script.createVersion (now env) originalScript in
  createScript env (Script.own newVersion) userId.

(** [updateMetrics(scriptId, metrics)]: the keys of [metrics] are written
    under [performance_metrics], after [last_used] and [updated_at] have
    been set to the time of the store.  With no key at all the first entry
    of the update has no value, which the store refuses. *)
Definition updateMetrics (env : Env) (scriptId : string) (metrics : Metrics) :
    M unit :=
  λ st,
    match metrics with
    | Data.Build_Metrics None None None None None =>
        (Thrown (StorageError "invalid-argument"), st)
    | _ =>
        match st !! scriptId with
        | None => (Thrown (StorageError "not-found"), st)
        | Some stored =>
            let held :=
              Data.or_object (Data.performance_metrics stored)
                (Data.Build_Metrics None None None None None) in
            let written :=
              Script.metrics_spread
                (Script.metrics_spread held
                   (Data.Build_Metrics None None None None
                      (Some (server_time env))))
                metrics in
            (Returned tt,
             <[scriptId :=
                 Data.mk (Data.id stored) (Data.name stored)
                   (Data.description stored) (Data.type stored)
                   (Data.industry stored) (Data.language stored)
                   (Data.tone stored) (Data.objective stored)
                   (Data.content stored) (Data.variables stored)
                   (Data.settings stored) (Val written) (Data.tags stored)
                   (Data.status stored) (Data.created_by stored)
                   (Data.created_at stored) (Val (server_time env))
                   (Data.version stored) (Data.parent_script_id stored)]> st)
        end
    end.

(** What a read of document [doc_id] without an owner reports as its
    [performance_metrics]; [None] when the read throws. *)
Definition read_metrics (env : Env) (st : Store) (doc_id : string) :
    option Metrics :=
  match fst (getScript env doc_id None st) with
  | Returned script => Some (Script.performance_metrics script)
  | Thrown _ => None
  end.

(** *** Queries *)

(** The documents of the collection in the order of their identifiers, as a
    query without [orderBy] lists them. *)
Definition documents (st : Store) : list (string * Data.t) :=
  merge_sort (λ a b, String.le (fst a) (fst b)) (map_to_list st).

(** [where(field, '==', value)] on a string field: the stored value is that
    string. *)
Definition field_is (x : field string) (value : string) : bool :=
  match x with
  | Val s => (s =? value)%string
  | _ => false
  end.

(** The [filters] argument of [searchScripts]. *)
Record Filters : Type := {
  type : option string;
  status : option string
}.

(** [if (filters.key) query = query.where(key, '==', filters.key)] *)
Definition where_given (given : option string) (x : field string) : bool :=
  match given with
  | Some value => if str_truthy value then field_is x value else true
  | None => true
  end.

(** [`${script.name} ${script.description} ${script.tags.join(' ')}`] in
    lower case. *)
Definition searchableText (script : Script.t) : string :=
  toLowerCase (Script.name script +:+ " " +:+ Script.description script
               +:+ " " +:+ String.concat " " (Script.tags script)).

Definition searchScripts (env : Env) (userId : string) (searchTerm : string)
    (filters : Filters) : M (list Script.t) :=
  λ st,
    let snapshot :=
      List.filter
        (λ doc, field_is (Data.created_by (snd doc)) userId
                && where_given (type filters) (Data.type (snd doc))
                && where_given (status filters) (Data.status (snd doc)))
        (documents st) in
    let scripts :=
      List.filter
        (λ script, includes (searchableText script) (toLowerCase searchTerm))
        (map (λ doc, Script.fromFirestore (now env) (fst doc) (snd doc))
             snapshot) in
    (Returned scripts, st).

(** The key of [orderBy('version', 'desc')]: a document without the field
    is not listed, a null sorts below every number. *)
Definition version_key (data : Data.t) : option (option Z) :=
  match Data.version data with
  | Absent => None
  | Null => Some None
  | Val n => Some (Some n)
  end.

(** [a] is listed no later than [b]: higher version first, and for equal
    versions the higher identifier first. *)
Definition versions_order (a b : string * Data.t) : Prop :=
  match Data.version (snd a), Data.version (snd b) with
  | Val m, Val n => (n < m)%Z ∨ (n = m ∧ String.le (fst b) (fst a))
  | Val _, _ => True
  | _, Val _ => False
  | _, _ => String.le (fst b) (fst a)
  end.

#[global] Instance versions_order_dec : RelDecision versions_order.
Proof.
  intros a b. unfold versions_order.
  destruct (Data.version (snd a)), (Data.version (snd b)); apply _.
Defined.

Definition getScriptVersions (env : Env) (parentScriptId : string)
    (userId : string) : M (list Script.t) :=
  λ st,
    let snapshot :=
      merge_sort versions_order
        (List.filter
           (λ doc, field_is (Data.parent_script_id (snd doc)) parentScriptId
                   && field_is (Data.created_by (snd doc)) userId
                   && bool_decide (is_Some (version_key (snd doc))))
           (documents st)) in
    (Returned
       (map (λ doc, Script.fromFirestore (now env) (fst doc) (snd doc))
            snapshot), st).

End ScriptService.

(** ** The routes ([routes/scripts.js]) *)

Module ScriptRoutes.

Import Js ScriptService.

(** [req.userId = req.headers['user-id'] || 'default-user'] *)
Definition authenticateUser (header : option string) : string :=
  match header with
  | Some user => if str_truthy user then user else "default-user"
  | None => "default-user"
  end.

(** What a handler answers: the status and the JSON body. *)
Record Response (A : Type) : Type := {
  status : nat;
  success : bool;
  data : option A;
  error : option string
}.
Arguments status {A}.
Arguments success {A}.
Arguments data {A}.
Arguments error {A}.

(** [error.message] *)
Definition message (e : Exn) : string :=
  match e with
  | JsError text => text
  | StorageError code => code
  end.

(** [error.message === 'Script not found' ? 404 :
     error.message === 'Access denied' ? 403 : otherwise] *)
Definition statusCode (e : Exn) (otherwise : nat) : nat :=
  if (message e =? "Script not found")%string then 404
  else if (message e =? "Access denied")%string then 403
  else otherwise.

(** [res.json({success: true, data})] or, in the [catch],
    [res.status(statusCode).json({success: false, error: error.message})]. *)
Definition respond {A} (ok : nat) (otherwise : nat)
    (run : outcome A * Store) : Response A * Store :=
  match run with
  | (Returned a, st) =>
      ({| status := ok; success := true; data := Some a; error := None |}, st)
  | (Thrown e, st) =>
      ({| status := statusCode e otherwise; success := false; data := None;
          error := Some (message e) |}, st)
  end.

(** [POST /]: every failure is answered 400. *)
Definition post_script (env : Env) (header : option string) (body : Data.t)
    (st : Store) : Response Script.t * Store :=
  match createScript env body (Some (authenticateUser header)) st with
  | (Returned a, st') =>
      ({| status := 201; success := true; data := Some a; error := None |},
       st')
  | (Thrown e, st') =>
      ({| status := 400; success := false; data := None;
          error := Some (message e) |}, st')
  end.

(** [GET /:id] *)
Definition get_script (env : Env) (header : option string) (id : string)
    (st : Store) : Response Script.t * Store :=
  respond 200 500 (getScript env id (Some (authenticateUser header)) st).

(** [PUT /:id] *)
Definition put_script (env : Env) (header : option string) (id : string)
    (body : Data.t) (st : Store) : Response Script.t * Store :=
  respond 200 400
    (updateScript env id body (Some (authenticateUser header)) st).

(** [DELETE /:id] *)
Definition delete_script (env : Env) (header : option string) (id : string)
    (st : Store) : Response unit * Store :=
  respond 200 500 (deleteScript env id (Some (authenticateUser header)) st).

End ScriptRoutes.

(** ** Sample data used to exercise the statements below *)

Module Sample.

Import Js.
Import Data(field, Absent, Null, Val, Metrics).

Definition env : ScriptService.Env :=
  {| ScriptService.now := 1000;
     ScriptService.server_time := 1001;
     ScriptService.new_id := "n1" |}.

(** A call script at its third version, derived from script [p0], as the
    store holds it for owner [alice]. *)
Definition intro : Data.t :=
  {| Data.id := Absent;
     Data.name := Val "Intro";
     Data.description := Absent; Data.type := Val "call";
     Data.industry := Absent; Data.language := Absent;
     Data.tone := Absent; Data.objective := Absent;
     Data.content :=
       Val (JObj [("opening", JStr "Hi {firstName} from {company}")]);
     Data.variables := Absent; Data.settings := Absent;
     Data.performance_metrics := Val Script.baseline_metrics;
     Data.tags := Absent; Data.status := Val "draft";
     Data.created_by := Val "alice";
     Data.created_at := Val 900%Z; Data.updated_at := Val 900%Z;
     Data.version := Val 3%Z;
     Data.parent_script_id := Val "p0" |}.

Definition store : gmap string Data.t := {[ "s1" := intro ]}.

(** A patch that carries metrics of its own. *)
Definition metrics_patch : Data.t :=
  Data.spread Data.empty
    {| Data.id := Absent; Data.name := Absent;
       Data.description := Absent; Data.type := Absent;
       Data.industry := Absent; Data.language := Absent;
       Data.tone := Absent; Data.objective := Absent;
       Data.content := Absent; Data.variables := Absent;
       Data.settings := Absent;
       Data.performance_metrics :=
         Val {| Data.total_uses := Some 999%Z;
                Data.success_rate := Some 100%Z;
                Data.average_duration := None;
                Data.conversion_rate := None;
                Data.last_used := None |};
       Data.tags := Absent; Data.status := Absent;
       Data.created_by := Absent; Data.created_at := Absent;
       Data.updated_at := Absent; Data.version := Absent;
       Data.parent_script_id := Absent |}.

(** A patch that renames the script. *)
Definition rename_patch : Data.t :=
  Data.mk Absent (Val "Warm intro") Absent Absent Absent Absent Absent Absent
    Absent Absent Absent Absent Absent Absent Absent Absent Absent Absent
    Absent.

(** A raw record without a name: it fails validation. *)
Definition nameless : Data.t :=
  Data.mk Absent Absent Absent Absent Absent Absent (Val "loud") Absent
    Absent Absent Absent Absent Absent Absent Absent Absent Absent Absent
    Absent.


(** A script whose content is the given value. *)
Definition with_content (content : json) : Script.t :=
  Script.new 0
    (Data.mk Absent (Val "Sample") Absent Absent Absent Absent Absent Absent
       (Val content) Absent Absent Absent Absent Absent Absent Absent Absent
       Absent Absent).

(** No name is found on the prototype. *)
Definition bare : string → option string := λ _, None.

(** Value maps. *)
Definition names : gmap string string := {[ "firstName" := "Ann" ]}.


Definition echo : gmap string string := {[ "name" := "{name}" ]}.

Definition brace : gmap string string := {[ "{" := "X" ]}.

End Sample.

(** ** Versioning *)

Section Versioning.

Import Js.
Import Data(field, Absent, Null, Val, Metrics).



Lemma or_null_of_nullable x :
  Data.or_null (Data.of_nullable (Data.or_null x)) = Data.or_null x.
Proof.
  destruct x as [| |s]; simpl; try done.
  destruct (str_truthy s) eqn:E; simpl; [by rewrite E|done].
Qed.

Lemma over_of_nullable {T} (a : field T) (x : option T) :
  Data.over a (Data.of_nullable x) = Data.of_nullable x.
Proof. by destruct x. Qed.





(** C10.  A script whose id is unset yields a version whose
    [parent_script_id] is null. *)
Theorem createVersion_of_unsaved (now : Z) (S : Script.t) :
  Script.id S = None →
  Script.parent_script_id (Script.createVersion now S) = None.
Proof. intros H. cbn. rewrite over_of_nullable. by rewrite H. Qed.

Lemma createVersion_of_unsaved_witness :
  Script.id (Script.new 0 Data.empty) = None
  ∧ Script.parent_script_id
      (Script.createVersion 5 (Script.new 0 Data.empty)) = None.
Proof.
  split; [reflexivity|].
  apply (createVersion_of_unsaved 5 (Script.new 0 Data.empty)). reflexivity.
Defined.

End Versioning.

(** ** The lifecycle service *)

Section Lifecycle.

Import Js ScriptService.

Implicit Types (env : Env) (st : gmap string Data.t) (userId : option string).

Lemma getScript_unfold env scriptId userId st :
  getScript env scriptId userId st =
  match st !! scriptId with
  | None => (Thrown (JsError "Script not found"), st)
  | Some data =>
      if other_owner userId (Script.fromFirestore (now env) scriptId data)
      then (Thrown (JsError "Access denied"), st)
      else (Returned (Script.fromFirestore (now env) scriptId data), st)
  end.
Proof.
  unfold getScript, bind, get. destruct (st !! scriptId) as [data|]; [|done].
  by destruct (other_owner _ _).
Qed.

Lemma createScript_unfold env scriptData userId st :
  createScript env scriptData userId st =
  let script := entity env scriptData userId in
  if Script.isValid (Script.validate script) then
    let script := Script.set_variables (Script.extractVariables script) script in
    (Returned (Script.set_id (new_id env) script),
     <[new_id env := Script.toFirestore script]> st)
  else
    (Thrown (JsError (validation_message
                        (Script.errors (Script.validate script)))), st).
Proof.
  unfold createScript. cbv zeta.
  by destruct (Script.isValid _).
Qed.

Lemma updateScript_unfold env scriptId updateData userId st :
  updateScript env scriptId updateData userId st =
  match st !! scriptId with
  | None => (Thrown (JsError "Script not found"), st)
  | Some data =>
      let existing := Script.fromFirestore (now env) scriptId data in
      if other_owner userId existing
      then (Thrown (JsError "Access denied"), st)
      else
        let updated := patched env scriptId existing updateData in
        if Script.isValid (Script.validate updated) then
          let updated :=
            Script.set_variables (Script.extractVariables updated) updated in
          (Returned updated,
           <[scriptId := Data.spread data (written env updated)]> st)
        else
          (Thrown (JsError (validation_message
                              (Script.errors (Script.validate updated)))), st)
  end.
Proof.
  unfold updateScript, bind. rewrite getScript_unfold.
  destruct (st !! scriptId) as [data|] eqn:Hdata; [|done].
  cbv zeta. destruct (other_owner _ _); [done|].
  destruct (Script.isValid _); [|done].
  cbn [negb]. unfold update, ret. by rewrite Hdata.
Qed.

Lemma or_number_idem x d :
  d ≠ 0%Z → Data.or_number (Val (Data.or_number x d)) d = Data.or_number x d.
Proof.
  intros Hd. destruct x as [| |n]; simpl.
  - by destruct (Z.eqb_spec d 0).
  - by destruct (Z.eqb_spec d 0).
  - destruct (Z.eqb_spec n 0) as [->|Hn].
    + by destruct (Z.eqb_spec d 0).
    + by destruct (Z.eqb_spec n 0).
Qed.

Lemma or_string_differs (x : field string) (user : string) :
  user ≠ EmptyString → x ≠ Val user → Data.or_string x EmptyString ≠ user.
Proof.
  intros Hu Hx. destruct x as [| |s]; simpl; try done.
  destruct (str_truthy s); [congruence|done].
Qed.

(** C1, as the code has it.  A duplicate that is produced carries the
    version and the [parent_script_id] of the script it was loaded from:
    the stored version (1 when none or 0 is stored) and the stored parent
    (null when none or an empty one is stored).  The same values are in the
    document added to the store. *)
Theorem duplicateScript_keeps_lineage env scriptId userId newName st dup st' :
  duplicateScript env scriptId userId newName st = (Returned dup, st') →
  ∃ data, st !! scriptId = Some data
    ∧ Script.version dup = Data.or_number (Data.version data) 1
    ∧ Script.parent_script_id dup = Data.or_null (Data.parent_script_id data)
    ∧ ∃ added, st' !! new_id env = Some added
        ∧ Data.version added = Val (Script.version dup)
        ∧ Data.parent_script_id added
          = Data.of_nullable (Script.parent_script_id dup).
Proof.
  unfold duplicateScript, bind. rewrite getScript_unfold.
  destruct (st !! scriptId) as [data|]; [|done].
  destruct (other_owner _ _); [done|].
  rewrite createScript_unfold. cbv zeta.
  destruct (Script.isValid _); [|done].
  intros [= <- <-]. exists data. split; [done|].
  split; [|split].
  - cbn -[Data.or_number]. rewrite !or_number_idem by done. done.
  - cbn -[Data.or_null]. by rewrite !or_null_of_nullable.
  - eexists. split; [apply lookup_insert_eq|]. done.
Qed.

Lemma duplicateScript_keeps_lineage_witness :
  ∃ dup st',
    duplicateScript Sample.env "s1" (Some "alice") None Sample.store
    = (Returned dup, st')
    ∧ ∃ data, Sample.store !! "s1" = Some data
        ∧ Script.version dup = Data.or_number (Data.version data) 1
        ∧ Script.parent_script_id dup
          = Data.or_null (Data.parent_script_id data)
        ∧ ∃ added, st' !! new_id Sample.env = Some added
            ∧ Data.version added = Val (Script.version dup)
            ∧ Data.parent_script_id added
              = Data.of_nullable (Script.parent_script_id dup).
Proof.
  eexists _, _. split; [vm_compute; reflexivity|].
  eapply (duplicateScript_keeps_lineage Sample.env "s1" (Some "alice") None
            Sample.store).
  vm_compute. reflexivity.
Defined.

(** C1 fails as stated: the duplicate of a third version derived from [p0]
    is again a third version derived from [p0], not a version 1 without
    parent. *)
Lemma duplicateScript_lineage_counterexample :
  ∃ dup st',
    duplicateScript Sample.env "s1" (Some "alice") None Sample.store
    = (Returned dup, st')
    ∧ Script.version dup = 3%Z
    ∧ Script.parent_script_id dup = Some "p0".
Proof. eexists _, _. vm_compute. done. Qed.

(** C6, as the code has it.  A read of an identifier the store does not
    hold throws the not-found error, whoever asks.  A read of a stored
    script by a non-empty owner other than the stored [created_by] throws
    the access-denied error, a different error, and returns nothing of the
    script; the store is left as it was. *)
Theorem getScript_refuses env scriptId userId st :
  match st !! scriptId with
  | None =>
      getScript env scriptId userId st
      = (Thrown (JsError "Script not found"), st)
  | Some data =>
      ∀ user, userId = Some user → user ≠ EmptyString →
        Data.created_by data ≠ Val user →
        getScript env scriptId userId st
        = (Thrown (JsError "Access denied"), st)
        ∧ JsError "Access denied" ≠ JsError "Script not found"
  end.
Proof.
  rewrite getScript_unfold. destruct (st !! scriptId) as [data|]; [|done].
  intros user -> Huser Hother. split; [|done].
  assert (Hdenied :
    other_owner (Some user) (Script.fromFirestore (now env) scriptId data)
    = true).
  { unfold other_owner. apply andb_true_iff. split.
    - unfold str_truthy. apply negb_true_iff, String.eqb_neq. done.
    - apply negb_true_iff, String.eqb_neq. cbn -[Data.or_string].
      by apply or_string_differs. }
  by rewrite Hdenied.
Qed.

Lemma getScript_refuses_witness :
  getScript Sample.env "s1" (Some "bob") Sample.store
  = (Thrown (JsError "Access denied"), Sample.store)
  ∧ getScript Sample.env "s2" (Some "bob") Sample.store
    = (Thrown (JsError "Script not found"), Sample.store).
Proof.
  split.
  - pose proof (getScript_refuses Sample.env "s1" (Some "bob") Sample.store)
      as H.
    change (Sample.store !! "s1") with (Some Sample.intro) in H.
    apply (H "bob"); [reflexivity|discriminate|discriminate].
  - exact (getScript_refuses Sample.env "s2" (Some "bob") Sample.store).
Defined.

(** C6 fails as stated: with the empty string as owner the ownership test
    is skipped and the script of [alice] is returned. *)
Lemma getScript_empty_owner_counterexample :
  Data.created_by Sample.intro ≠ Val EmptyString
  ∧ getScript Sample.env "s1" (Some EmptyString) Sample.store
    = (Returned (Script.fromFirestore 1000 "s1" Sample.intro), Sample.store).
Proof. split; [discriminate|]. vm_compute. reflexivity. Qed.

Lemma validation_message_head errors :
  ∃ tail, validation_message errors = String "V" tail.
Proof. by eexists. Qed.

(** C5.  When the entity built from the raw record fails [validate()],
    [createScript] throws an error whose message joins every reported
    violation, there is at least one, the store is left as it was, and the
    error differs from the not-found error, the access-denied error and
    every failure of the store. *)
Theorem createScript_rejects_invalid env scriptData userId st :
  Script.isValid (Script.validate (entity env scriptData userId)) = false →
  createScript env scriptData userId st
  = (Thrown (JsError (validation_message
       (Script.errors (Script.validate (entity env scriptData userId))))), st)
  ∧ validation_message
      (Script.errors (Script.validate (entity env scriptData userId)))
    = "Validation failed: "
      +:+ String.concat ", "
            (Script.errors (Script.validate (entity env scriptData userId)))
  ∧ Script.errors (Script.validate (entity env scriptData userId)) ≠ []
  ∧ JsError (validation_message
       (Script.errors (Script.validate (entity env scriptData userId))))
    ≠ JsError "Script not found"
  ∧ JsError (validation_message
       (Script.errors (Script.validate (entity env scriptData userId))))
    ≠ JsError "Access denied"
  ∧ ∀ code,
      JsError (validation_message
        (Script.errors (Script.validate (entity env scriptData userId))))
      ≠ StorageError code.
Proof.
  intros Hinvalid. split; [|split; [done|split; [|split; [|split]]]].
  - rewrite createScript_unfold. cbv zeta. by rewrite Hinvalid.
  - intros Hnil. revert Hinvalid. unfold Script.validate at 1.
    cbv zeta. cbn [Script.isValid].
    unfold Script.validate in Hnil. cbv zeta in Hnil. cbn [Script.errors] in Hnil.
    by rewrite Hnil.
  - destruct (validation_message_head
                (Script.errors (Script.validate (entity env scriptData userId))))
      as [tail ->]. discriminate.
  - destruct (validation_message_head
                (Script.errors (Script.validate (entity env scriptData userId))))
      as [tail ->]. discriminate.
  - discriminate.
Qed.

Lemma createScript_rejects_invalid_witness :
  createScript Sample.env Sample.nameless (Some "alice") Sample.store
  = (Thrown (JsError
       "Validation failed: Script name is required, Invalid tone specified, Opening script is required for call scripts"),
     Sample.store).
Proof.
  apply (createScript_rejects_invalid Sample.env Sample.nameless
           (Some "alice") Sample.store).
  vm_compute. reflexivity.
Defined.

(** C2, as the code has it.  An update whose patch has no
    [performance_metrics] key leaves the metrics of every stored script as
    they are read, whether the update goes through or throws; where the
    store holds a metrics object, that very object is still stored. *)
Theorem updateScript_keeps_metrics env scriptId updateData userId st doc_id :
  Data.performance_metrics updateData = Absent →
  read_metrics env (snd (updateScript env scriptId updateData userId st)) doc_id
  = read_metrics env st doc_id
  ∧ ∀ data held,
      st !! doc_id = Some data → Data.performance_metrics data = Val held →
      ∃ data',
        snd (updateScript env scriptId updateData userId st) !! doc_id
        = Some data'
        ∧ Data.performance_metrics data' = Val held.
Proof.
  intros Hpatch. rewrite updateScript_unfold.
  destruct (st !! scriptId) as [stored|] eqn:Hstored;
    [|split; [done|by eauto]].
  cbv zeta. destruct (other_owner _ _); [split; [done|by eauto]|].
  destruct (Script.isValid _); [|split; [done|by eauto]].
  cbn [snd].
  destruct (decide (scriptId = doc_id)) as [<-|Hne].
  - split.
    + unfold read_metrics. rewrite !getScript_unfold.
      rewrite lookup_insert_eq, Hstored. cbn. rewrite Hpatch. cbn.
      done.
    + intros data held. rewrite Hstored. intros [= <-] Hheld.
      eexists. split; [apply lookup_insert_eq|].
      cbn. rewrite Hpatch, Hheld. by destruct held.
  - split.
    + unfold read_metrics. rewrite !getScript_unfold.
      rewrite lookup_insert_ne by done. by destruct (st !! doc_id).
    + intros data held Hdata Hheld. exists data.
      by rewrite lookup_insert_ne.
Qed.

Lemma updateScript_keeps_metrics_witness :
  read_metrics Sample.env
    (snd (updateScript Sample.env "s1" Sample.rename_patch (Some "alice")
            Sample.store)) "s1"
  = read_metrics Sample.env Sample.store "s1"
  ∧ ∀ data held,
      Sample.store !! "s1" = Some data →
      Data.performance_metrics data = Val held →
      ∃ data',
        snd (updateScript Sample.env "s1" Sample.rename_patch (Some "alice")
               Sample.store) !! "s1" = Some data'
        ∧ Data.performance_metrics data' = Val held.
Proof.
  apply (updateScript_keeps_metrics Sample.env "s1" Sample.rename_patch
           (Some "alice") Sample.store "s1").
  reflexivity.
Defined.

(** C2 fails as stated: a patch that carries [performance_metrics] replaces
    the stored metrics. *)
Lemma updateScript_metrics_counterexample :
  read_metrics Sample.env Sample.store "s1" = Some Script.baseline_metrics
  ∧ read_metrics Sample.env
      (snd (updateScript Sample.env "s1" Sample.metrics_patch (Some "alice")
              Sample.store)) "s1"
    = Some {| Data.total_uses := Some 999%Z;
              Data.success_rate := Some 100%Z;
              Data.average_duration := None;
              Data.conversion_rate := None;
              Data.last_used := None |}.
Proof. split; vm_compute; reflexivity. Qed.

(** The metrics update is the operation that rewrites the stored metrics:
    the given keys are stored, [last_used] and [updated_at] are refreshed. *)
Lemma updateMetrics_writes env scriptId st data held uses :
  st !! scriptId = Some data →
  Data.performance_metrics data = Val held →
  ∃ data',
    snd (updateMetrics env scriptId
           (Data.Build_Metrics (Some uses) None None None None) st)
    !! scriptId = Some data'
    ∧ Data.performance_metrics data'
      = Val (Data.Build_Metrics (Some uses) (Data.success_rate held)
               (Data.average_duration held) (Data.conversion_rate held)
               (Some (server_time env)))
    ∧ Data.updated_at data' = Val (server_time env).
Proof.
  intros Hdata Hheld. unfold updateMetrics. rewrite Hdata. cbn [snd].
  eexists. split; [apply lookup_insert_eq|]. cbn. by rewrite Hheld.
Qed.

End Lifecycle.

(** ** The variable engine *)

Section Scanner.

Import Js.

Implicit Types (s p x run rest l t r : string) (c : ascii).

Ltac by_exec := match goal with E : regex_exec _ = _ |- _ => by rewrite E end.

Lemma exec_all_step s :
  exec_all s = match regex_exec s with
               | None => []
               | Some (_, group, rest) => group :: exec_all rest
               end.
Proof. funelim (exec_all s); by_exec. Qed.

Lemma regex_replace_step f s :
  regex_replace f s =
  match regex_exec s with
  | None => s
  | Some (skipped, group, rest) =>
      skipped +:+ f (String lbrace group +:+ String rbrace EmptyString) group
              +:+ regex_replace f rest
  end.
Proof. funelim (regex_replace f s); by_exec. Qed.

Lemma sapp_cons c s p : String c s +:+ p = String c (s +:+ p).
Proof. reflexivity. Qed.

Lemma sapp_nil_l s : EmptyString +:+ s = s.
Proof. reflexivity. Qed.

Ltac ssimpl := rewrite ?sapp_cons, ?sapp_nil_l; simpl.
Ltac ssimpl_in H := rewrite ?sapp_cons, ?sapp_nil_l in H; simpl in H.

Lemma sapp_assoc s p x : (s +:+ p) +:+ x = s +:+ (p +:+ x).
Proof. induction s as [|c s IH]; ssimpl; [done|by rewrite IH]. Qed.

Lemma sapp_nil_r s : s +:+ EmptyString = s.
Proof. induction s as [|c s IH]; ssimpl; [done|by rewrite IH]. Qed.

Lemma mem_app c s p : mem c (s +:+ p) = mem c s || mem c p.
Proof.
  induction s as [|a s IH]; ssimpl; [done|].
  rewrite IH. by rewrite orb_assoc.
Qed.

Lemma until_close_app p x run rest :
  until_close p = Some (run, rest) →
  until_close (p +:+ x) = Some (run, rest +:+ x).
Proof.
  revert run. induction p as [|c p IH]; intros run; ssimpl; [done|].
  destruct (c =? rbrace)%char; [by intros [= <- <-]|].
  destruct (until_close p) as [[run' rest']|]; [|done].
  intros [= <- <-]. by rewrite (IH run' eq_refl).
Qed.


Lemma until_close_some s :
  mem rbrace s = true → ∃ run rest, until_close s = Some (run, rest).
Proof.
  induction s as [|c s IH]; simpl; [done|].
  destruct (c =? rbrace)%char; [by eauto|]. intros H.
  destruct (IH H) as (run & rest & ->). by eauto.
Qed.

Lemma until_close_spec s run rest :
  until_close s = Some (run, rest) →
  s = run +:+ String rbrace rest ∧ mem rbrace run = false.
Proof.
  revert run. induction s as [|c s IH]; intros run; simpl; [done|].
  destruct (c =? rbrace)%char eqn:Ec.
  - intros [= <- <-]. apply Ascii.eqb_eq in Ec as ->. done.
  - destruct (until_close s) as [[run' rest']|]; [|done].
    intros [= <- <-]. destruct (IH run' eq_refl) as [-> Hrun].
    simpl. by rewrite Ec.
Qed.






Lemma inert_cons_other c s : (c =? lbrace)%char = false → inert (String c s) = inert s.
Proof. intros H. simpl. by rewrite H. Qed.

Lemma inert_app s p : inert s = true → inert p = true → inert (s +:+ p) = true.
Proof.
  intros Hs Hp. induction s as [|c s IH]; [done|].
  simpl in *. destruct (c =? lbrace)%char.
  - destruct s as [|c' s]; [done|]. simpl in *.
    apply andb_true_iff in Hs as [-> Hs]. simpl. by apply IH.
  - by apply IH.
Qed.

Lemma inert_plain s : mem lbrace s = false → inert s = true.
Proof.
  induction s as [|c s IH]; [done|]. simpl.
  intros [-> H]%orb_false_iff. by apply IH.
Qed.

Lemma inert_exec s : inert s = true → regex_exec s = None.
Proof.
  induction s as [|c s IH]; [done|]. simpl.
  destruct (c =? lbrace)%char.
  - destruct s as [|c' s]; [done|].
    intros [Hc Hs]%andb_true_iff. rewrite (IH Hs).
    cbn [until_close]. by rewrite Hc.
  - intros Hs. by rewrite (IH Hs).
Qed.

Lemma inert_closed s : inert s = true → closed s = true.
Proof.
  induction s as [|c s IH]; [done|]. simpl.
  destruct (c =? lbrace)%char.
  - destruct s as [|c' s]; [done|].
    intros [Hc Hs]%andb_true_iff. rewrite (IH Hs).
    cbn [mem]. by rewrite Hc.
  - intros Hs. by rewrite (IH Hs).
Qed.

Lemma closed_app_r s p : closed (s +:+ p) = true → closed p = true.
Proof.
  induction s as [|c s IH]; [done|]. simpl.
  intros [_ H]%andb_true_iff. by apply IH.
Qed.

Lemma regex_exec_spec s skipped group rest :
  regex_exec s = Some (skipped, group, rest) →
  s = skipped +:+ String lbrace (group +:+ String rbrace rest)
  ∧ group ≠ EmptyString
  ∧ mem rbrace group = false
  ∧ inert skipped = true.
Proof.
  revert skipped. induction s as [|c s IH]; intros skipped; simpl; [done|].
  assert (Hlater : (c =? lbrace)%char = false ∨ (∃ r', s = String rbrace r') →
    match regex_exec s with
    | Some (skipped0, group0, rest0) => Some (String c skipped0, group0, rest0)
    | None => None
    end = Some (skipped, group, rest) →
    String c s = skipped +:+ String lbrace (group +:+ String rbrace rest)
    ∧ group ≠ EmptyString ∧ mem rbrace group = false ∧ inert skipped = true).
  { intros Hc. destruct (regex_exec s) as [[[sk g] r]|]; [|done].
    intros [= <- <- <-]. destruct (IH sk eq_refl) as (-> & Hg & Hm & Hi).
    repeat split; try done.
    destruct Hc as [Hc|[r' Hr']]; [by rewrite inert_cons_other|].
    simpl. destruct (c =? lbrace)%char; [|done].
    destruct sk as [|c' sk]; simpl in Hr'; [done|].
    injection Hr' as -> _. rewrite Hi. done. }
  destruct (c =? lbrace)%char eqn:Ec; [|by apply Hlater; left].
  destruct (until_close s) as [[[|a run] rest']|] eqn:E.
  - apply until_close_spec in E as [-> _]. apply Hlater. right. by eauto.
  - intros [= <- <- <-]. apply until_close_spec in E as [-> Hm].
    apply Ascii.eqb_eq in Ec as ->. done.
  - intros H. destruct (regex_exec s) as [[[sk g] r]|] eqn:Es; [|done].
    injection H as <- <- <-.
    destruct (IH sk eq_refl) as (Hs & _).
    assert (mem rbrace s = true) as Hmem.
    { rewrite Hs, mem_app. simpl. rewrite mem_app. simpl.
      by rewrite !orb_true_r. }
    apply until_close_some in Hmem as (? & ? & ?). congruence.
Qed.

Lemma regex_exec_app p x :
  closed p = true →
  regex_exec (p +:+ x)
  = match regex_exec p with
    | Some (skipped, group, rest) => Some (skipped, group, rest +:+ x)
    | None =>
        match regex_exec x with
        | Some (skipped, group, rest) => Some (p +:+ skipped, group, rest)
        | None => None
        end
    end.
Proof.
  induction p as [|c p IH].
  - intros _. rewrite sapp_nil_l. by destruct (regex_exec x) as [[[??]?]|].
  - rewrite sapp_cons. cbn [closed regex_exec].
    intros [Hc Hp]%andb_true_iff. rewrite (IH Hp).
    destruct (c =? lbrace)%char.
    + apply until_close_some in Hc as (run & rest & Hrun).
      rewrite (until_close_app _ x _ _ Hrun), Hrun.
      destruct run as [|a run]; [|done].
      destruct (regex_exec p) as [[[??]?]|]; [done|].
      by destruct (regex_exec x) as [[[??]?]|].
    + destruct (regex_exec p) as [[[??]?]|]; [done|].
      by destruct (regex_exec x) as [[[??]?]|].
Qed.

Lemma by_length (P : string → Prop) :
  (∀ s, (∀ s', String.length s' < String.length s → P s') → P s) → ∀ s, P s.
Proof.
  intros Hstep s. remember (String.length s) as n eqn:Hn.
  revert s Hn. induction n as [n IH] using lt_wf_ind.
  intros s ->. apply Hstep. intros s' Hlt. by apply (IH _ Hlt).
Qed.

(** Text after a closed prefix is processed on its own. *)
Lemma regex_replace_app f p x :
  closed p = true →
  regex_replace f (p +:+ x) = regex_replace f p +:+ regex_replace f x.
Proof.
  revert p. apply (by_length (λ p, closed p = true → _)).
  intros p IH Hp.
  rewrite (regex_replace_step f (p +:+ x)), (regex_replace_step f p).
  rewrite regex_exec_app by done.
  destruct (regex_exec p) as [[[sk g] r]|] eqn:Ep.
  - pose proof (regex_exec_length _ _ _ _ Ep) as Hlt.
    destruct (regex_exec_spec _ _ _ _ Ep) as (Hs & _).
    rewrite IH; [by rewrite !sapp_assoc|done|].
    rewrite Hs in Hp. apply closed_app_r in Hp. cbn [closed] in Hp.
    apply andb_true_iff in Hp as [_ Hp].
    apply closed_app_r in Hp. cbn [closed] in Hp.
    by apply andb_true_iff in Hp as [_ Hp].
  - rewrite (regex_replace_step f x).
    destruct (regex_exec x) as [[[sk g] r]|]; [|done].
    by rewrite !sapp_assoc.
Qed.

Lemma regex_exec_closed_inert s :
  regex_exec s = None → closed s = true → inert s = true.
Proof.
  induction s as [|c s IH]; [done|]. cbn [regex_exec closed inert].
  intros Hexec [Hc Hs]%andb_true_iff.
  destruct (c =? lbrace)%char.
  - apply until_close_some in Hc as (run & rest & Hrun). rewrite Hrun in Hexec.
    destruct run as [|a run]; [|done].
    apply until_close_spec in Hrun as [-> _]. rewrite sapp_nil_l in *.
    change (inert (String rbrace rest) = true). apply IH; [|done].
    by destruct (regex_exec _) as [[[??]?]|].
  - apply IH; [|done]. by destruct (regex_exec s) as [[[??]?]|].
Qed.

Lemma exec_all_none s : regex_exec s = None → exec_all s = [].
Proof. intros H. by rewrite exec_all_step, H. Qed.

Lemma exec_all_first s skipped group rest :
  regex_exec s = Some (skipped, group, rest) →
  exec_all s = group :: exec_all rest.
Proof. intros H. by rewrite exec_all_step, H. Qed.

End Scanner.

(** *** Serialized content *)

Section Serialized.

Import Js.

Lemma json_induction (P : json → Prop) :
  P JNull → (∀ b, P (JBool b)) → (∀ n, P (JNum n)) → (∀ s, P (JStr s)) →
  (∀ items, Forall P items → P (JArr items)) →
  (∀ props, Forall (λ kv, P (snd kv)) props → P (JObj props)) →
  ∀ v, P v.
Proof.
  intros Hnull Hbool Hnum Hstr Harr Hobj.
  fix IH 1. intros [| b | n | s | items | props].
  - exact Hnull.
  - apply Hbool.
  - apply Hnum.
  - apply Hstr.
  - apply Harr. induction items as [|v items IHitems]; constructor.
    + apply IH.
    + exact IHitems.
  - apply Hobj. induction props as [|[k v] props IHprops]; constructor.
    + apply IH.
    + exact IHprops.
Qed.

Lemma inert_app_plain s p : mem lbrace s = false → inert (s +:+ p) = inert p.
Proof.
  induction s as [|c s IH]; [done|]. rewrite sapp_cons. cbn [mem inert].
  intros [-> H]%orb_false_iff. by apply IH.
Qed.

Lemma escape_char_plain c :
  (c =? lbrace)%char = false → mem lbrace (escape_char c) = false.
Proof.
  destruct c as [[] [] [] [] [] [] [] []]; vm_compute; congruence.
Qed.

Lemma escape_inert s : inert s = true → inert (escape s) = true.
Proof.
  induction s as [|c s IH]; [done|]. cbn [inert escape].
  destruct (c =? lbrace)%char eqn:Ec.
  - apply Ascii.eqb_eq in Ec as ->.
    destruct s as [|c' s]; [done|].
    intros [Hc Hs]%andb_true_iff. apply Ascii.eqb_eq in Hc as ->.
    specialize (IH Hs). revert IH. cbn [escape]. done.
  - intros Hs. rewrite inert_app_plain by (by apply escape_char_plain).
    by apply IH.
Qed.

Lemma pretty_N_go_plain (x : N) s :
  mem lbrace s = false → mem lbrace (pretty_N_go x s) = false.
Proof.
  revert s. induction (N.lt_wf_0 x) as [x _ IH]; intros s Hs.
  assert (x = 0 ∨ 0 < x)%N as [->|Hx] by lia.
  - by rewrite pretty_N_go_0.
  - rewrite pretty_N_go_step by done. apply IH.
    { by apply N.div_lt. }
    cbn [mem]. rewrite Hs. unfold pretty_N_char. by repeat case_match.
Qed.

Lemma pretty_Z_plain (n : Z) : mem lbrace (pretty n) = false.
Proof.
  unfold pretty, pretty_Z. destruct n as [|p|p]; [done| |].
  - unfold pretty, pretty_positive, pretty, pretty_N.
    case_decide; [done|]. by apply pretty_N_go_plain.
  - rewrite mem_app. unfold pretty, pretty_positive, pretty, pretty_N.
    case_decide; [done|]. by rewrite pretty_N_go_plain.
Qed.

Lemma concat_inert sep (parts : list string) :
  inert sep = true → Forall (λ part, inert part = true) parts →
  inert (String.concat sep parts) = true.
Proof.
  intros Hsep. induction 1 as [|part parts Hpart Hparts IH]; [done|].
  cbn [String.concat]. destruct parts as [|part' parts]; [done|].
  apply inert_app; [done|]. by apply inert_app.
Qed.

(** Without mappings, the serialization has no brace but those of the
    string leaves. *)
Lemma stringify_inert v :
  no_mapping v = true →
  (∀ s, s ∈ strings v → inert s = true) →
  inert (stringify v) = true.
Proof.
  induction v as [| b | n | s | items IH | props IH] using json_induction;
    cbn [stringify no_mapping strings].
  - done.
  - by destruct b.
  - intros _ _. apply inert_plain, pretty_Z_plain.
  - intros _ Hs. unfold quote. apply inert_app; [done|].
    apply inert_app; [|done]. apply escape_inert, Hs. by left.
  - intros Hitems Hs. apply inert_app; [done|]. apply inert_app; [|done].
    apply concat_inert; [done|]. apply Forall_map.
    rewrite Forall_forall in IH. apply Forall_forall. intros v Hv.
    apply IH; [done| |].
    + rewrite forallb_forall in Hitems. apply Hitems.
      by apply list_elem_of_In.
    + intros s Hin. apply Hs. apply list_elem_of_In, in_flat_map.
      exists v. split; by apply list_elem_of_In.
  - done.
Qed.

End Serialized.

(** *** Substitution *)

Section Substitution.

Import Js.

Variable variableValues : gmap string string.
Variable inherited : string → option string.

Abbreviation replaceInString :=
  (Script.replaceInString variableValues inherited).
Abbreviation replaceInObject :=
  (Script.replaceInObject variableValues inherited).
Abbreviation replaceVariables :=
  (Script.replaceVariables variableValues inherited).
Abbreviation resolved := (Script.resolved variableValues).

Lemma replaceInString_step s :
  replaceInString s =
  match regex_exec s with
  | None => s
  | Some (skipped, group, rest) =>
      skipped
      +:+ Script.replacement variableValues inherited
            (String lbrace (group +:+ String rbrace EmptyString)) group
      +:+ replaceInString rest
  end.
Proof. exact (regex_replace_step _ s). Qed.

Lemma replacement_resolved match_ token :
  resolved token →
  mem lbrace (Script.replacement variableValues inherited match_ token) = false.
Proof.
  intros (value & Hvalue & Hne & Hplain). unfold Script.replacement.
  rewrite Hvalue. unfold str_truthy.
  by destruct (String.eqb_spec value EmptyString).
Qed.

Lemma regex_exec_closed_rest s skipped group rest :
  regex_exec s = Some (skipped, group, rest) →
  closed s = true → closed rest = true.
Proof.
  intros (-> & _)%regex_exec_spec Hs.
  apply closed_app_r in Hs. cbn [closed] in Hs.
  apply andb_true_iff in Hs as [_ Hs].
  apply closed_app_r in Hs. cbn [closed] in Hs.
  by apply andb_true_iff in Hs as [_ Hs].
Qed.

(** Once every token of a leaf is resolved, no placeholder is left in it. *)
Lemma replaceInString_settled s :
  (∀ t, t ∈ exec_all s → resolved t) →
  regex_exec (replaceInString s) = None.
Proof.
  revert s. apply (by_length (λ s, _ → _)). intros s IH Hcover.
  rewrite replaceInString_step.
  destruct (regex_exec s) as [[[sk g] r]|] eqn:Es; [|done].
  rewrite (exec_all_first _ _ _ _ Es) in Hcover.
  destruct (regex_exec_spec _ _ _ _ Es) as (_ & _ & _ & Hsk).
  rewrite <- sapp_assoc. rewrite regex_exec_app.
  - rewrite inert_exec.
    + rewrite IH; [done|by eapply regex_exec_length|].
      intros t Ht. apply Hcover. by right.
    + apply inert_app; [done|]. apply inert_plain, replacement_resolved.
      apply Hcover. by left.
  - apply inert_closed, inert_app; [done|].
    apply inert_plain, replacement_resolved. apply Hcover. by left.
Qed.

(** In a closed leaf, moreover, no ["{"] is left open. *)
Lemma replaceInString_inert s :
  closed s = true → (∀ t, t ∈ exec_all s → resolved t) →
  inert (replaceInString s) = true.
Proof.
  revert s. apply (by_length (λ s, _ → _ → _)). intros s IH Hs Hcover.
  rewrite replaceInString_step.
  destruct (regex_exec s) as [[[sk g] r]|] eqn:Es;
    [|by apply regex_exec_closed_inert].
  rewrite (exec_all_first _ _ _ _ Es) in Hcover.
  destruct (regex_exec_spec _ _ _ _ Es) as (_ & _ & _ & Hsk).
  apply inert_app; [done|]. apply inert_app.
  - apply inert_plain, replacement_resolved. apply Hcover. by left.
  - apply IH; [by eapply regex_exec_length|by eapply regex_exec_closed_rest|].
    intros t Ht. apply Hcover. by right.
Qed.

Lemma strings_replaceInObject v :
  strings (replaceInObject v) = map replaceInString (strings v).
Proof.
  induction v as [| b | n | s | items IH | props IH] using json_induction;
    cbn [Script.replaceInObject strings]; try done.
  - induction IH as [|v items Hv _ IHitems]; [done|].
    cbn [map flat_map]. by rewrite map_app, Hv, IHitems.
  - induction IH as [|[k v] props Hv _ IHprops]; [done|].
    cbn [map flat_map fst snd] in *. by rewrite map_app, Hv, IHprops.
Qed.

Lemma no_mapping_replaceInObject v :
  no_mapping (replaceInObject v) = no_mapping v.
Proof.
  induction v as [| b | n | s | items IH | props IH] using json_induction;
    cbn [Script.replaceInObject no_mapping]; try done.
  induction IH as [|v items Hv _ IHitems]; [done|].
  cbn [map forallb]. by rewrite Hv, IHitems.
Qed.

Lemma exec_all_nonempty s t : t ∈ exec_all s → t ≠ EmptyString.
Proof.
  revert s. apply (by_length (λ s, _ → _)). intros s IH.
  rewrite exec_all_step.
  destruct (regex_exec s) as [[[sk g] r]|] eqn:Es; [|by intros ?%elem_of_nil].
  intros [->|Ht]%elem_of_cons.
  - by destruct (regex_exec_spec _ _ _ _ Es) as (_ & ? & _).
  - eapply IH; [by eapply regex_exec_length|done].
Qed.

Lemma set_add_fold (groups acc : list string) x :
  x ∈ fold_left (λ variables group, set_add group variables) groups acc →
  x ∈ acc ∨ x ∈ groups.
Proof.
  revert acc. induction groups as [|g groups IH]; intros acc; cbn [fold_left].
  - by left.
  - intros [Hacc|Hin]%IH; [|right; by right].
    unfold set_add in Hacc. case_bool_decide; [by left|].
    apply elem_of_app in Hacc as [?|Hx]; [by left|].
    apply list_elem_of_singleton in Hx as ->. right. by left.
Qed.



(** C9, as the code has it.  The empty name is never among the extracted
    variables.  A ["{}"] that follows a closed text (no ["{"] before it is
    still waiting for its ["}"]) is left where it is, and the text on either
    side is processed on its own. *)
Theorem empty_braces_kept :
  (∀ this, EmptyString ∉ Script.extractVariables this)
  ∧ (∀ before after,
       closed before = true →
       replaceInString (before +:+ "{}" +:+ after)
       = replaceInString before +:+ "{}" +:+ replaceInString after).
Proof.
  split.
  - intros this Hin. unfold Script.extractVariables in Hin.
    apply set_add_fold in Hin as [Hin|Hin]; [by apply elem_of_nil in Hin|].
    by apply exec_all_nonempty in Hin.
  - intros before after Hbefore. unfold Script.replaceInString.
    rewrite regex_replace_app by done. f_equal.
    by rewrite (regex_replace_app _ "{}" after).
Qed.

(** C4, as the code has it.  When the map resolves every token of every
    string leaf to a non-empty text without ["{"], no string leaf of the
    substituted content holds a placeholder; and when moreover the content
    has no mapping and its string leaves are closed, [extractVariables] of
    the substituted script is empty. *)
Theorem full_substitution (this : Script.t) :
  (∀ s t, s ∈ strings (Script.content this) → t ∈ exec_all s → resolved t) →
  (∀ s, s ∈ strings (Script.content (replaceVariables this)) →
        exec_all s = [])
  ∧ (no_mapping (Script.content this) = true →
     (∀ s, s ∈ strings (Script.content this) → closed s = true) →
     Script.extractVariables (replaceVariables this) = []).
Proof.
  intros Hcover. split.
  - intros s. cbn [Script.replaceVariables Script.content].
    rewrite strings_replaceInObject.
    intros (s0 & -> & Hs0)%list_elem_of_fmap.
    apply exec_all_none, replaceInString_settled. by eauto.
  - intros Hplain Hclosed. unfold Script.extractVariables.
    cbn [Script.replaceVariables Script.content].
    rewrite exec_all_none; [done|]. apply inert_exec, stringify_inert.
    + by rewrite no_mapping_replaceInObject.
    + intros s. rewrite strings_replaceInObject.
      intros (s0 & -> & Hs0)%list_elem_of_fmap.
      apply replaceInString_inert; by eauto.
Qed.

End Substitution.

(** *** The serialization of a mapping *)

Section Mapping.

Import Js.

Lemma set_add_extends (groups acc : list string) :
  ∃ more,
    fold_left (λ variables group, set_add group variables) groups acc
    = (acc ++ more)%list.
Proof.
  revert acc. induction groups as [|g groups IH]; intros acc; cbn [fold_left].
  - exists []. by rewrite app_nil_r.
  - destruct (IH (set_add g acc)) as [more ->]. unfold set_add.
    case_bool_decide; [by eauto|]. rewrite <- app_assoc. by eauto.
Qed.

Lemma concat_head sep (part : string) (parts : list string) :
  ∃ tail, String.concat sep (part :: parts) = part +:+ tail.
Proof.
  cbn [String.concat]. destruct parts as [|part' parts]; [|by eauto].
  exists EmptyString. by rewrite sapp_nil_r.
Qed.

(** Whatever the leaves hold, the first name extracted from a non-empty
    mapping starts with the quote of its first key: it is a piece of the
    serialization, not a placeholder of the content. *)
Lemma extractVariables_of_mapping this key value props :
  Script.content this = JObj ((key, value) :: props) →
  ∃ tail names,
    Script.extractVariables this = String (ascii_of_N 34) tail :: names.
Proof.
  intros Hcontent. unfold Script.extractVariables. rewrite Hcontent.
  cbn [stringify map fst snd].
  destruct (concat_head ","
              (quote key +:+ ":" +:+ stringify value)
              (map (λ kv, quote (fst kv) +:+ ":" +:+ stringify (snd kv)) props))
    as [tail ->].
  unfold quote at 1. rewrite !sapp_assoc.
  change ("{" +:+ dquote +:+ ?body)
    with (String lbrace (String (ascii_of_N 34) body)).
  set (body := escape key +:+ _).
  assert (mem rbrace body = true) as Hclose.
  { unfold body. rewrite !mem_app. cbn [mem].
    by rewrite Ascii.eqb_refl, !orb_true_r. }
  apply until_close_some in Hclose as (run & rest & Hrun).
  rewrite exec_all_step. cbn [regex_exec until_close].
  rewrite Hrun. cbn.
  match goal with
  | |- context [fold_left _ ?groups ?acc] =>
      destruct (set_add_extends groups acc) as [more ->]
  end.
  unfold set_add. case_bool_decide as Hin; [by apply elem_of_nil in Hin|].
  by eauto.
Qed.

End Mapping.



Lemma empty_braces_kept_witness :
  Script.replaceInString Sample.names Sample.bare "{firstName}{}{firstName}"
  = "Ann{}Ann".
Proof.
  destruct (empty_braces_kept Sample.names Sample.bare) as [_ Hkept].
  exact (Hkept "{firstName}" "{firstName}" eq_refl).
Defined.

(** C9 fails as stated: after an unclosed ["{"] the braces ["{}"] are the
    end of a placeholder named ["{"], and go with it. *)
Lemma empty_braces_counterexample :
  Script.content
    (Script.replaceVariables Sample.brace Sample.bare
       (Sample.with_content (Js.JObj [("opening", Js.JStr "{{}")])))
  = Js.JObj [("opening", Js.JStr "X")].
Proof. vm_compute. reflexivity. Qed.

Lemma full_substitution_witness :
  Script.extractVariables
    (Script.replaceVariables Sample.names Sample.bare
       (Sample.with_content (Js.JArr [Js.JStr "Hi {firstName}"; Js.JNum 2])))
  = [].
Proof.
  apply (full_substitution Sample.names Sample.bare
           (Sample.with_content
              (Js.JArr [Js.JStr "Hi {firstName}"; Js.JNum 2]))).
  - intros s t Hs Ht. vm_compute in Hs.
    apply list_elem_of_singleton in Hs as ->. vm_compute in Ht.
    apply list_elem_of_singleton in Ht as ->.
    exists "Ann". repeat split; [discriminate].
  - reflexivity.
  - intros s Hs. vm_compute in Hs.
    by apply list_elem_of_singleton in Hs as ->.
Defined.

(** C4 fails as stated: a value that is itself a placeholder brings the
    token back. *)
Lemma full_substitution_counterexample :
  Script.extractVariables (Sample.with_content (Js.JArr [Js.JStr "Hi {name}"]))
  = ["name"]
  ∧ Sample.echo !! "name" = Some "{name}"
  ∧ Script.extractVariables
      (Script.replaceVariables Sample.echo Sample.bare
         (Sample.with_content (Js.JArr [Js.JStr "Hi {name}"])))
    = ["name"].
Proof. repeat split; vm_compute; reflexivity. Qed.

(** C8: what the code returns for the content
    [{opening: "Hi {firstName} from {company}"}].  The brace that opens the
    serialized mapping pairs with the first ["}"] of the text. *)
Theorem extractVariables_serialized_mapping :
  Script.extractVariables
    (Sample.with_content
       (Js.JObj [("opening", Js.JStr "Hi {firstName} from {company}")]))
  = [Js.dquote +:+ "opening" +:+ Js.dquote +:+ ":" +:+ Js.dquote
       +:+ "Hi {firstName";
     "company"].
Proof. vm_compute. reflexivity. Qed.
